(** * Camera navigation controller of the 3D image viewer

    Shallow embedding of [CameraRig] (App.js): the navigation target held in
    the refs [targetX], [targetY], [targetZ], the modifier and drag flags, the
    window-level event handlers, the control handle ([reset], [focusOn]) and
    the per-frame damping step run by [useFrame].

    JavaScript numbers are kept abstract behind the interface [Number]. The
    handlers are written once against that interface and read at two
    instances. IEEE-754 binary64 is the arithmetic the engine executes, with
    rounding, [NaN] and [Infinity]. The real numbers are the exact arithmetic
    the specification reasons in: a statement made at the reals describes the
    program up to rounding, and says so. Statements quantified over every
    [Number] use no law of arithmetic and hold for the program as it runs. *)

From Stdlib Require Import Reals Lra Lia ZArith List Bool String.
From Stdlib Require Import PrimFloat.
Import ListNotations.

Set Implicit Arguments.

(** ** Numbers *)

(** The operations the program applies to numbers: the four arithmetic
    operators, unary minus, [Math.sqrt], the truthiness test behind [||], and
    [Number.isFinite]. *)
Class Number (T : Type) : Type := {
  ofZ : Z -> T;
  add : T -> T -> T;
  sub : T -> T -> T;
  mul : T -> T -> T;
  div : T -> T -> T;
  neg : T -> T;
  sqrt : T -> T;
  truthy : T -> bool;
  isFinite : T -> bool
}.

Declare Scope js_scope.
Delimit Scope js_scope with js.
Infix "+" := add : js_scope.
Infix "-" := sub : js_scope.
Infix "*" := mul : js_scope.
Infix "/" := div : js_scope.
Notation "- x" := (neg x) : js_scope.

(** A decimal literal [m / 10^k] of the source text, e.g. [0.09] is
    [decimal 9 100]. In binary64 the correctly rounded quotient of two small
    integers is the double the literal denotes (checked below for every
    literal of the program). *)
Definition decimal {T} `{Number T} (m : Z) (pow10 : positive) : T :=
  (ofZ m / ofZ (Zpos pow10))%js.

(** [a || b] on numbers. *)
Definition orElse {T} `{Number T} (a b : T) : T :=
  if truthy a then a else b.

(** *** Real numbers *)

Definition R_truthy (x : R) : bool :=
  if Req_dec_T x 0 then false else true.

#[export] Instance Number_R : Number R := {
  ofZ := IZR;
  add := Rplus;
  sub := Rminus;
  mul := Rmult;
  div := Rdiv;
  neg := Ropp;
  sqrt := R_sqrt.sqrt;
  truthy := R_truthy;
  isFinite := fun _ => true
}.

(** *** binary64 *)

Fixpoint float_of_pos (p : positive) : float :=
  match p with
  | xH => 1%float
  | xO q => PrimFloat.mul 2%float (float_of_pos q)
  | xI q => PrimFloat.add (PrimFloat.mul 2%float (float_of_pos q)) 1%float
  end.

Definition float_of_Z (z : Z) : float :=
  match z with
  | Z0 => 0%float
  | Zpos p => float_of_pos p
  | Zneg p => PrimFloat.opp (float_of_pos p)
  end.

(** ToBoolean on a number: [0], [-0] and [NaN] are falsy. *)
Definition float_truthy (x : float) : bool :=
  negb (PrimFloat.is_zero x || PrimFloat.is_nan x).

Definition float_isFinite (x : float) : bool :=
  negb (PrimFloat.is_nan x || PrimFloat.is_infinity x).

#[export] Instance Number_binary64 : Number float := {
  ofZ := float_of_Z;
  add := PrimFloat.add;
  sub := PrimFloat.sub;
  mul := PrimFloat.mul;
  div := PrimFloat.div;
  neg := PrimFloat.opp;
  sqrt := PrimFloat.sqrt;
  truthy := float_truthy;
  isFinite := float_isFinite
}.

(** ** three.js vectors, matrices and rays

    The part of the three.js library that [handleWheel] calls, method by
    method. *)

Section Three.

Context {T : Type} `{Number T}.

Local Open Scope js_scope.

Record Vector2 : Type := mkVector2 { v2x : T; v2y : T }.

Record Vector3 : Type := mkVector3 { vx : T; vy : T; vz : T }.

(** [Matrix4.elements], column-major, sixteen entries. *)
Record Matrix4 : Type := mkMatrix4 { elements : list T }.

Definition el (m : Matrix4) (i : nat) : T := nth i (elements m) (ofZ 0).

(** [Vector3.add] *)
Definition v3add (a b : Vector3) : Vector3 :=
  mkVector3 (vx a + vx b) (vy a + vy b) (vz a + vz b).

(** [Vector3.sub] *)
Definition v3sub (a b : Vector3) : Vector3 :=
  mkVector3 (vx a - vx b) (vy a - vy b) (vz a - vz b).

(** [Vector3.multiplyScalar] *)
Definition multiplyScalar (a : Vector3) (s : T) : Vector3 :=
  mkVector3 (vx a * s) (vy a * s) (vz a * s).

(** [Vector3.divideScalar]: [return this.multiplyScalar( 1 / scalar )]. *)
Definition divideScalar (a : Vector3) (s : T) : Vector3 :=
  multiplyScalar a (ofZ 1 / s).

(** [Vector3.length] *)
Definition length3 (a : Vector3) : T :=
  sqrt (vx a * vx a + vy a * vy a + vz a * vz a).

(** [Vector3.normalize]: [return this.divideScalar( this.length() || 1 )]. *)
Definition normalize (a : Vector3) : Vector3 :=
  divideScalar a (orElse (length3 a) (ofZ 1)).

(** [Vector3.applyMatrix4] *)
Definition applyMatrix4 (a : Vector3) (m : Matrix4) : Vector3 :=
  let x := vx a in
  let y := vy a in
  let z := vz a in
  let w := ofZ 1 / (el m 3 * x + el m 7 * y + el m 11 * z + el m 15) in
  mkVector3
    ((el m 0 * x + el m 4 * y + el m 8 * z + el m 12) * w)
    ((el m 1 * x + el m 5 * y + el m 9 * z + el m 13) * w)
    ((el m 2 * x + el m 6 * y + el m 10 * z + el m 14) * w).

(** [Vector3.setFromMatrixPosition] *)
Definition setFromMatrixPosition (m : Matrix4) : Vector3 :=
  mkVector3 (el m 12) (el m 13) (el m 14).

(** The fields of a [PerspectiveCamera] the rig touches. [position] is
    written by [useFrame]; the two matrices are maintained by the renderer. *)
Record Camera : Type := mkCamera {
  position : Vector3;
  matrixWorld : Matrix4;
  projectionMatrixInverse : Matrix4
}.

(** [Vector3.unproject] *)
Definition unproject (a : Vector3) (camera : Camera) : Vector3 :=
  applyMatrix4 (applyMatrix4 a (projectionMatrixInverse camera))
               (matrixWorld camera).

Record Ray : Type := mkRay { origin : Vector3; direction : Vector3 }.

(** [Raycaster.setFromCamera], perspective branch:
    [ray.origin.setFromMatrixPosition( camera.matrixWorld )] and
    [ray.direction.set( coords.x, coords.y, 0.5 ).unproject( camera )
       .sub( ray.origin ).normalize()]. *)
Definition setFromCamera (coords : Vector2) (camera : Camera) : Ray :=
  let o := setFromMatrixPosition (matrixWorld camera) in
  mkRay o
    (normalize
       (v3sub (unproject (mkVector3 (v2x coords) (v2y coords) (decimal 5 10))
                         camera) o)).

End Three.

Arguments Vector2 T : clear implicits.
Arguments Vector3 T : clear implicits.
Arguments Matrix4 T : clear implicits.
Arguments Camera T : clear implicits.
Arguments Ray T : clear implicits.

(** ** The rig *)

Section Rig.

Context {T : Type} `{Number T}.

Local Open Scope js_scope.

(** [lastMouse.current], an object [{ x, y }]. *)
Record Point : Type := mkPoint { px : T; py : T }.

(** The six refs created by [CameraRig]. *)
Record RigState : Type := mkRigState {
  targetX : T;
  targetY : T;
  targetZ : T;
  ctrlPressed : bool;
  isDragging : bool;
  lastMouse : Point
}.

(** NavigationTarget as one vector. *)
Definition navigationTarget (st : RigState) : Vector3 T :=
  mkVector3 (targetX st) (targetY st) (targetZ st).

Record KeyboardEvent : Type := mkKeyboardEvent { key : string }.

Record MouseEvent : Type := mkMouseEvent { clientX : T; clientY : T }.

(** A wheel event is a mouse event with [deltaY]. *)
Record WheelEvent : Type := mkWheelEvent { pointer : MouseEvent; deltaY : T }.

(** The fields of [getBoundingClientRect()] the handler reads. *)
Record DOMRect : Type := mkDOMRect {
  left : T;
  top : T;
  width : T;
  height : T
}.

(** The camera handed to [<Canvas camera={{ position: [0, 0, 10], ... }}>]. *)
Definition canvasCameraPosition : Vector3 T :=
  mkVector3 (ofZ 0) (ofZ 0) (ofZ 10).

(** [useRef(0)], [useRef(0)], [useRef(camera.position.z)], [useRef(false)],
    [useRef(false)], [useRef({ x: 0, y: 0 })]. *)
Definition initialRig (camera : Camera T) : RigState :=
  mkRigState (ofZ 0) (ofZ 0) (vz (position camera)) false false
             (mkPoint (ofZ 0) (ofZ 0)).

(** *** Gains, as the literals of the source *)

Definition ZOOM_GAIN : T := decimal 5 10.        (* 0.5 *)
Definition PAN_WHEEL_GAIN : T := decimal 6 100.  (* 0.06 *)
Definition PAN_GAIN : T := decimal 9 100.        (* 0.09 *)
Definition DAMPING : T := decimal 1 10.          (* 0.1 *)
Definition focusOffset : T := ofZ 5.
Definition defaultZ : T := ofZ 10.

(** *** Control handle: [cameraControl.current] *)

Definition reset (st : RigState) : RigState :=
  mkRigState (ofZ 0) (ofZ 0) (ofZ 10)
             (ctrlPressed st) (isDragging st) (lastMouse st).

Definition focusOn (x y z : T) (st : RigState) : RigState :=
  mkRigState x y (z + ofZ 5)
             (ctrlPressed st) (isDragging st) (lastMouse st).

(** *** Event handlers *)

Definition handleKeyDown (st : RigState) (e : KeyboardEvent) : RigState :=
  if String.eqb (key e) "Control"
  then mkRigState (targetX st) (targetY st) (targetZ st)
                  true (isDragging st) (lastMouse st)
  else st.

Definition handleKeyUp (st : RigState) (e : KeyboardEvent) : RigState :=
  if String.eqb (key e) "Control"
  then mkRigState (targetX st) (targetY st) (targetZ st)
                  false (isDragging st) (lastMouse st)
  else st.

(** The pointer in normalised device coordinates:
    [((e.clientX - rect.left) / rect.width) * 2 - 1] and
    [-((e.clientY - rect.top) / rect.height) * 2 + 1]. *)
Definition pointerNDC (rect : DOMRect) (e : MouseEvent) : Vector2 T :=
  mkVector2
    (((clientX e - left rect) / width rect) * ofZ 2 - ofZ 1)
    ((- ((clientY e - top rect) / height rect)) * ofZ 2 + ofZ 1).

(** [raycaster.ray.origin.clone().add(
      raycaster.ray.direction.clone().multiplyScalar(10))] *)
Definition zoomPoint (ray : Ray T) : Vector3 T :=
  v3add (origin ray) (multiplyScalar (direction ray) (ofZ 10)).

(** [point.clone().sub(camera.position).normalize()] *)
Definition zoomDirection (camera : Camera T) (point : Vector3 T) : Vector3 T :=
  normalize (v3sub point (position camera)).

(** [handleWheel]. The call [e.preventDefault()] acts on the browser only and
    leaves the refs alone. *)
Definition handleWheel (camera : Camera T) (rect : DOMRect)
  (st : RigState) (e : WheelEvent) : RigState :=
  let mouse := pointerNDC rect (pointer e) in
  if ctrlPressed st then
    let ray := setFromCamera mouse camera in
    let point := zoomPoint ray in
    let zoomFactor := (- deltaY e) * decimal 5 10 in
    let direction := zoomDirection camera point in
    mkRigState (targetX st + vx direction * zoomFactor)
               (targetY st + vy direction * zoomFactor)
               (targetZ st + vz direction * zoomFactor)
               (ctrlPressed st) (isDragging st) (lastMouse st)
  else
    mkRigState (targetX st) (targetY st + deltaY e * decimal 6 100) (targetZ st)
               (ctrlPressed st) (isDragging st) (lastMouse st).

Definition handleMouseDown (st : RigState) (e : MouseEvent) : RigState :=
  mkRigState (targetX st) (targetY st) (targetZ st)
             (ctrlPressed st) true (mkPoint (clientX e) (clientY e)).

Definition handleMouseMove (st : RigState) (e : MouseEvent) : RigState :=
  if negb (isDragging st) then st
  else
    let dx := clientX e - px (lastMouse st) in
    let dy := clientY e - py (lastMouse st) in
    mkRigState (targetX st - dx * decimal 9 100)
               (targetY st + dy * decimal 9 100)
               (targetZ st)
               (ctrlPressed st) (isDragging st)
               (mkPoint (clientX e) (clientY e)).

Definition handleMouseUp (st : RigState) : RigState :=
  mkRigState (targetX st) (targetY st) (targetZ st)
             (ctrlPressed st) false (lastMouse st).

(** *** Per-frame integration: the [useFrame] callback *)

Definition useFrame (st : RigState) (camera : Camera T) : Camera T :=
  let p := position camera in
  mkCamera
    (mkVector3 (vx p + (targetX st - vx p) * decimal 1 10)
               (vy p + (targetY st - vy p) * decimal 1 10)
               (vz p + (targetZ st - vz p) * decimal 1 10))
    (matrixWorld camera) (projectionMatrixInverse camera).

(** [n] render ticks with the rig untouched in between. *)
Fixpoint frames (n : nat) (st : RigState) (camera : Camera T) : Camera T :=
  match n with
  | O => camera
  | S k => frames k st (useFrame st camera)
  end.

(** *** The earlier draft of the component (src/App.js)

    It differs from the canonical one in two places: focusing goes through a
    [focusTarget] prop and an effect instead of [focusOn], and the modifier
    wheel zooms along the view axis. *)

(** [useEffect(() => { if (focusTarget) { ... } }, [focusTarget])] *)
Definition focusTargetEffect (focusTarget : option (T * T * T))
  (st : RigState) : RigState :=
  match focusTarget with
  | Some (f0, f1, f2) =>
      mkRigState f0 f1 (f2 + ofZ 10)
                 (ctrlPressed st) (isDragging st) (lastMouse st)
  | None => st
  end.


(** *** Everything that can reach the rig between two frames *)

Inductive Input : Type :=
| KeyDown (e : KeyboardEvent)
| KeyUp (e : KeyboardEvent)
| Wheel (e : WheelEvent)
| MouseDown (e : MouseEvent)
| MouseMove (e : MouseEvent)
| MouseUp
| CallReset
| CallFocusOn (x y z : T).

Definition dispatch (camera : Camera T) (rect : DOMRect)
  (st : RigState) (i : Input) : RigState :=
  match i with
  | KeyDown e => handleKeyDown st e
  | KeyUp e => handleKeyUp st e
  | Wheel e => handleWheel camera rect st e
  | MouseDown e => handleMouseDown st e
  | MouseMove e => handleMouseMove st e
  | MouseUp => handleMouseUp st
  | CallReset => reset st
  | CallFocusOn x y z => focusOn x y z st
  end.

(** Inputs are handled synchronously, in arrival order. *)
Definition run (camera : Camera T) (rect : DOMRect)
  (st : RigState) (inputs : list Input) : RigState :=
  fold_left (dispatch camera rect) inputs st.

(** Pan intents: drag-start, drag-move, drag-end. *)
Definition isPanIntent (i : Input) : bool :=
  match i with
  | MouseDown _ | MouseMove _ | MouseUp => true
  | _ => false
  end.


Definition targetFinite (st : RigState) : bool :=
  isFinite (targetX st) && isFinite (targetY st) && isFinite (targetZ st).

End Rig.

Arguments Point T : clear implicits.
Arguments RigState T : clear implicits.
Arguments MouseEvent T : clear implicits.
Arguments WheelEvent T : clear implicits.
Arguments DOMRect T : clear implicits.
Arguments Input T : clear implicits.

(** ** The canvas camera

    [<Canvas camera={{ position: [0, 0, 10], fov: 75 }}>] creates a
    [PerspectiveCamera] that is never rotated: its world matrix is the
    translation to its position and its projection is the symmetric frustum
    built by [updateProjectionMatrix]. *)

Section CanvasCamera.

Context {T : Type} `{Number T}.

Local Open Scope js_scope.

(** [Matrix4.makeTranslation] *)
Definition makeTranslation (p : Vector3 T) : Matrix4 T :=
  mkMatrix4
    [ ofZ 1; ofZ 0; ofZ 0; ofZ 0;
      ofZ 0; ofZ 1; ofZ 0; ofZ 0;
      ofZ 0; ofZ 0; ofZ 1; ofZ 0;
      vx p;  vy p;  vz p;  ofZ 1 ].

(** [Matrix4.makePerspective( left, right, top, bottom, near, far )] *)
Definition makePerspective (l r t b near far : T) : Matrix4 T :=
  let x := ofZ 2 * near / (r - l) in
  let y := ofZ 2 * near / (t - b) in
  let a := (r + l) / (r - l) in
  let b' := (t + b) / (t - b) in
  let c := (- (far + near)) / (far - near) in
  let d := (- ofZ 2) * far * near / (far - near) in
  mkMatrix4
    [ x;     ofZ 0; ofZ 0; ofZ 0;
      ofZ 0; y;     ofZ 0; ofZ 0;
      a;     b';    c;     - ofZ 1;
      ofZ 0; ofZ 0; d;     ofZ 0 ].

(** The inverse of the matrix above in closed form; [project_unproject] below
    shows that it undoes [makePerspective]. *)
Definition makePerspectiveInverse (l r t b near far : T) : Matrix4 T :=
  let x := ofZ 2 * near / (r - l) in
  let y := ofZ 2 * near / (t - b) in
  let a := (r + l) / (r - l) in
  let b' := (t + b) / (t - b) in
  let c := (- (far + near)) / (far - near) in
  let d := (- ofZ 2) * far * near / (far - near) in
  mkMatrix4
    [ ofZ 1 / x; ofZ 0;     ofZ 0;   ofZ 0;
      ofZ 0;     ofZ 1 / y; ofZ 0;   ofZ 0;
      ofZ 0;     ofZ 0;     ofZ 0;   ofZ 1 / d;
      a / x;     b' / y;    - ofZ 1; c / d ].

(** The frustum of [PerspectiveCamera.updateProjectionMatrix] with [zoom = 1]
    and no view offset; [tanHalfFov] stands for
    [Math.tan( DEG2RAD * 0.5 * fov )]. *)
Definition frustum {A} (k : T -> T -> T -> T -> T -> T -> A)
  (tanHalfFov aspect near far : T) : A :=
  let top := near * tanHalfFov in
  let height := ofZ 2 * top in
  let width := aspect * height in
  let left := (- decimal 5 10) * width in
  k left (left + width) top (top - height) near far.

(** The camera of the canvas standing at [p]. *)
Definition canvasCamera (p : Vector3 T) (tanHalfFov aspect near far : T)
  : Camera T :=
  mkCamera p (makeTranslation p)
           (frustum makePerspectiveInverse tanHalfFov aspect near far).

(** [Vector3.project] for the canvas camera standing at [p]: its
    [matrixWorldInverse] is the translation by [-p] and its
    [projectionMatrix] the frustum above. *)
Definition canvasProject (p : Vector3 T) (tanHalfFov aspect near far : T)
  (v : Vector3 T) : Vector3 T :=
  applyMatrix4
    (applyMatrix4 v (makeTranslation (mkVector3 (- vx p) (- vy p) (- vz p))))
    (frustum makePerspective tanHalfFov aspect near far).

End CanvasCamera.

(** ** The scene: images on a grid *)

Section Scene.

Context {T : Type} `{Number T}.

Local Open Scope js_scope.

Definition ofNat (n : nat) : T := ofZ (Z.of_nat n).

Definition spacingX : T := ofZ 19.
Definition spacingY : T := ofZ 16.
Definition numCols : nat := 6.

(** The position [Scene] gives the image of index [i]; [random] is the value
    [Math.random()] returned for it:
    [col = i % numCols], [row = Math.floor(i / numCols)],
    [x = (col - numCols / 2) * spacingX], [y = -(row * spacingY)],
    [z = (Math.random() - 0.5) * 45]. *)
Definition imagePosition (i : nat) (random : T) : Vector3 T :=
  let col := (i mod numCols)%nat in
  let row := (i / numCols)%nat in
  mkVector3 ((ofNat col - ofNat numCols / ofZ 2) * spacingX)
            (- (ofNat row * spacingY))
            ((random - decimal 5 10) * ofZ 45).

(** [images.map((img, i) => <ImageHtml url={img} position={[x, y, z]} />)],
    the [i]-th call of [Math.random] returning [random i]. *)
Definition scene (images : list string) (random : nat -> T)
  : list (string * Vector3 T) :=
  map (fun p => (snd p, imagePosition (fst p) (random (fst p))))
      (combine (seq 0 (List.length images)) images).

(** [onImageClick] as [App] wires it:
    [(pos) => cameraControl.current?.focusOn(pos[0], pos[1], pos[2])].
    [cameraControl.current] is [null] until [CameraRig] has mounted. *)
Definition onImageClick (pos : Vector3 T) (control : option (RigState T))
  : option (RigState T) :=
  match control with
  | Some st => Some (focusOn (vx pos) (vy pos) (vz pos) st)
  | None => None
  end.

(** The Reset View button: [() => cameraControl.current?.reset()]. *)
Definition onResetClick (control : option (RigState T))
  : option (RigState T) :=
  match control with
  | Some st => Some (reset st)
  | None => None
  end.

End Scene.

(** ** Window listeners

    The effect of [CameraRig] registers its six handlers on [window] and
    returns a cleanup that removes them. A listener is identified, as in the
    DOM, by its type, its callback and its capture flag; [passive] is carried
    along but plays no part in the identity. *)

Record Listener : Type := mkListener {
  eventType : string;
  callback : nat;
  capture : bool;
  passive : option bool
}.

Definition sameListener (a b : Listener) : bool :=
  String.eqb (eventType a) (eventType b)
  && Nat.eqb (callback a) (callback b)
  && Bool.eqb (capture a) (capture b).

(** [addEventListener]: appended unless an equal listener is there already. *)
Definition addEventListener (l : Listener) (w : list Listener)
  : list Listener :=
  if existsb (sameListener l) w then w else w ++ [l].

(** [removeEventListener]: the equal listener, if any, is taken out. *)
Definition removeEventListener (l : Listener) (w : list Listener)
  : list Listener :=
  filter (fun x => negb (sameListener l x)) w.

(** The six registrations of the effect; [h] numbers the closures
    [handleKeyDown], [handleKeyUp], [handleWheel], [handleMouseDown],
    [handleMouseMove], [handleMouseUp] of one run of the effect. *)
Definition rigListeners (h : nat) : list Listener :=
  [ mkListener "keydown" h false None;
    mkListener "keyup" (h + 1) false None;
    mkListener "wheel" (h + 2) false (Some false);
    mkListener "mousedown" (h + 3) false None;
    mkListener "mousemove" (h + 4) false None;
    mkListener "mouseup" (h + 5) false None ].

(** What the cleanup passes to [removeEventListener]: the same callbacks,
    with no options. *)
Definition rigRemovals (h : nat) : list Listener :=
  [ mkListener "keydown" h false None;
    mkListener "keyup" (h + 1) false None;
    mkListener "wheel" (h + 2) false None;
    mkListener "mousedown" (h + 3) false None;
    mkListener "mousemove" (h + 4) false None;
    mkListener "mouseup" (h + 5) false None ].

Definition mountRig (h : nat) (w : list Listener) : list Listener :=
  fold_left (fun acc l => addEventListener l acc) (rigListeners h) w.

Definition unmountRig (h : nat) (w : list Listener) : list Listener :=
  fold_left (fun acc l => removeEventListener l acc) (rigRemovals h) w.

(** ** Which inputs a flag listens to *)

Definition isKeyInput {T} (i : Input T) : bool :=
  match i with
  | KeyDown _ | KeyUp _ => true
  | _ => false
  end.

Definition isButtonInput {T} (i : Input T) : bool :=
  match i with
  | MouseDown _ | MouseUp => true
  | _ => false
  end.

Definition isMouseMove {T} (i : Input T) : bool :=
  match i with
  | MouseMove _ => true
  | _ => false
  end.

Definition isPlainWheel {T} (i : Input T) : bool :=
  match i with
  | Wheel _ => true
  | _ => false
  end.

(** The [deltaY] an input carries (0 when it is not a wheel event). *)
Definition wheelDelta (i : Input R) : R :=
  match i with
  | Wheel e => deltaY e
  | _ => 0%R
  end.

(** The pointer position a mouse input carries. *)
Definition pointerOf (fallback : Point R) (i : Input R) : Point R :=
  match i with
  | MouseDown e | MouseMove e => mkPoint (clientX e) (clientY e)
  | _ => fallback
  end.

(** ** Reading vectors one axis at a time *)

Inductive Axis : Type := AxisX | AxisY | AxisZ.

Definition coord {T} (a : Axis) (v : Vector3 T) : T :=
  match a with
  | AxisX => vx v
  | AxisY => vy v
  | AxisZ => vz v
  end.

Local Open Scope R_scope.

(** ** Sample values used to exercise the theorems *)

Definition sampleRect : DOMRect R := mkDOMRect 0 0 800 600.

(** The canvas camera at its initial position: [fov = 75], an 800 x 600
    canvas, and the near and far planes the canvas gives a camera by default
    (0.1 and 1000). *)
Definition sampleCamera : Camera R :=
  canvasCamera canvasCameraPosition (tan (PI / 180 * (5 / 10) * 75))
               (800 / 600) (1 / 10) 1000.


(** Depth, in camera space, of the point the canvas camera unprojects an NDC
    point of depth 0.5 to. *)
Definition unprojectDepth (near far : R) : R :=
  4 * far * near / (far + 3 * near).

Definition centerWheel (dy : R) : WheelEvent R :=
  mkWheelEvent (mkMouseEvent 400 300) dy.

Definition sampleDragging : RigState R :=
  mkRigState 1 2 3 false true (mkPoint 100 50).

Definition sampleZooming : RigState R :=
  mkRigState 0 0 10 true false (mkPoint 0 0).

(** The same canvas and events in binary64. *)

Definition rect64 : DOMRect float :=
  mkDOMRect 0%float 0%float 800%float 600%float.

(** [0x1.88df153d6a676p-1] is [Math.tan(Math.PI / 180 * 0.5 * 75)]. *)
Definition camera64 : Camera float :=
  canvasCamera canvasCameraPosition 0x1.88df153d6a676p-1%float
               (800 / 600)%float (decimal 1 10) 1000%float.

(** A wheel event at the centre of the canvas with [deltaY = 2^1023], a
    finite double. *)
Definition hugeWheel : Input float :=
  Wheel (mkWheelEvent (mkMouseEvent 400%float 300%float) 0x1p1023%float).

(** A drag in progress from (0, 0), a held modifier, and a target set to
    (3, -6, 0), with the target refs otherwise as at start. *)
Definition dragging64 : RigState float :=
  mkRigState 0%float 0%float 10%float false true (mkPoint 0%float 0%float).

Definition zooming64 : RigState float :=
  mkRigState 0%float 0%float 10%float true false (mkPoint 0%float 0%float).

Definition focused64 : RigState float :=
  mkRigState 3%float (-6)%float 0%float false false
             (mkPoint 0%float 0%float).

(** A pointer right of and above the centre of the 800 x 600 canvas. *)
Definition offCentre64 : MouseEvent float := mkMouseEvent 600%float 150%float.

(** A camera whose matrices were never filled in. *)
Definition sampleCamera64_degenerate : Camera float :=
  mkCamera canvasCameraPosition (mkMatrix4 []) (mkMatrix4 []).

(** * Properties over the real numbers *)

(** Unfolds the number interface at [R]. *)
Ltac js_R :=
  unfold decimal, orElse in *;
  cbn [ofZ add sub mul div neg sqrt truthy isFinite Number_R] in *.

(** C5. [reset] sets NavigationTarget to (0, 0, 10) from every state, drag in
    progress or not, and 10 is the z of the camera the canvas starts with and
    the value [targetZ] is initialised to. *)
Theorem reset_yields_default (st : RigState R) :
  navigationTarget (reset st) = mkVector3 0 0 10
  /\ vz (canvasCameraPosition (T := R)) = 10
  /\ forall m pinv,
       targetZ (initialRig (mkCamera canvasCameraPosition m pinv)) = 10.
Proof. repeat split. Qed.

(** C4. [focusOn x y z] sets NavigationTarget to (x, y, z + focusOffset) with
    focusOffset = 5, a constant between 5 and 10; a second call overrides the
    first completely. The draft's [focusTarget] effect does the same with
    offset 10. *)
Theorem focusOn_latest_wins (st : RigState R) (x y z x' y' z' : R) :
  navigationTarget (focusOn x y z st) = mkVector3 x y (z + focusOffset)
  /\ focusOffset (T := R) = 5 /\ 5 <= focusOffset (T := R) <= 10
  /\ focusOn x' y' z' (focusOn x y z st) = focusOn x' y' z' st
  /\ navigationTarget (focusTargetEffect (Some (x, y, z)) st)
     = mkVector3 x y (z + 10)
  /\ focusTargetEffect (Some (x', y', z'))
       (focusTargetEffect (Some (x, y, z)) st)
     = focusTargetEffect (Some (x', y', z')) st.
Proof.
  unfold focusOffset; js_R.
  repeat split; lra.
Qed.

(** C10. [reset] and [focusOn] write the three target refs only: the modifier
    flag, the drag flag and the last pointer are as before, so a reset in the
    middle of a drag leaves the drag going. *)
Theorem control_calls_frame (st : RigState R) (x y z : R) :
  ctrlPressed (reset st) = ctrlPressed st
  /\ isDragging (reset st) = isDragging st
  /\ lastMouse (reset st) = lastMouse st
  /\ ctrlPressed (focusOn x y z st) = ctrlPressed st
  /\ isDragging (focusOn x y z st) = isDragging st
  /\ lastMouse (focusOn x y z st) = lastMouse st.
Proof. repeat split. Qed.

(** C7 (as the code behaves). A [mousemove] during a drag sets [targetX] to
    [targetX - dx * 0.09] and [targetY] to [targetY + dy * 0.09], evaluated in
    the program's arithmetic, where (dx, dy) is the pointer delta since the
    last recorded pointer, and records the new pointer; outside a drag the
    event changes nothing. In exact arithmetic the delta (10, -5) changes the
    target by -0.9 and -0.45; in binary64, from the target (0, 0), it leaves
    -0.8999999999999999 and -0.44999999999999996. *)
Theorem mousemove_pan :
  (forall (T : Type) (N : Number T) (st : RigState T) (e : MouseEvent T),
      (isDragging st = true ->
       handleMouseMove st e
       = mkRigState
           (targetX st - (clientX e - px (lastMouse st)) * decimal 9 100)%js
           (targetY st + (clientY e - py (lastMouse st)) * decimal 9 100)%js
           (targetZ st) (ctrlPressed st) true
           (mkPoint (clientX e) (clientY e)))
      /\ (isDragging st = false -> handleMouseMove st e = st))
  /\ (forall (st : RigState R) (e : MouseEvent R),
        isDragging st = true ->
        clientX e - px (lastMouse st) = 10 ->
        clientY e - py (lastMouse st) = -5 ->
        targetX (handleMouseMove st e) - targetX st = - (9 / 10)
        /\ targetY (handleMouseMove st e) - targetY st = - (45 / 100))
  /\ handleMouseMove dragging64 (mkMouseEvent 10%float (-5)%float)
     = mkRigState (-0x1.cccccccccccccp-1)%float (-0x1.cccccccccccccp-2)%float
                  10%float false true (mkPoint 10%float (-5)%float).
Proof.
  split; [|split].
  - intros T N st e; unfold handleMouseMove.
    split; intros Hd; rewrite Hd; reflexivity.
  - intros st e Hd Hx Hy; unfold handleMouseMove; rewrite Hd.
    cbn [negb targetX targetY]; js_R; rewrite Hx, Hy; split; lra.
  - vm_compute; reflexivity.
Qed.

Lemma mousemove_pan_witness :
  handleMouseMove dragging64 (mkMouseEvent 10%float (-5)%float)
  = mkRigState
      (targetX dragging64
       - (10%float - px (lastMouse dragging64)) * decimal 9 100)%js
      (targetY dragging64
       + ((-5)%float - py (lastMouse dragging64)) * decimal 9 100)%js
      10%float false true (mkPoint 10%float (-5)%float)
  /\ handleMouseMove (handleMouseUp dragging64)
       (mkMouseEvent 10%float (-5)%float)
     = handleMouseUp dragging64
  /\ targetX (handleMouseMove sampleDragging (mkMouseEvent 110 45))
     - targetX sampleDragging = - (9 / 10).
Proof.
  destruct mousemove_pan as (Hany & Hexact & _).
  split; [|split].
  - exact (proj1 (Hany float Number_binary64 dragging64
                    (mkMouseEvent 10%float (-5)%float)) eq_refl).
  - exact (proj2 (Hany float Number_binary64 (handleMouseUp dragging64)
                    (mkMouseEvent 10%float (-5)%float)) eq_refl).
  - apply (Hexact sampleDragging (mkMouseEvent 110 45)); cbn; lra.
Defined.

(** C7, as stated, fails in the arithmetic the program runs on: a drag by
    (10, -5) from the target (0, 0) does not change the target by the doubles
    -0.9 and -0.45. *)
Lemma mousemove_pan_inexact64 :
  PrimFloat.eqb
    (targetX (handleMouseMove dragging64 (mkMouseEvent 10%float (-5)%float))
     - targetX dragging64)%js
    (decimal (-9) 10)
  = false
  /\ PrimFloat.eqb
       (targetY (handleMouseMove dragging64 (mkMouseEvent 10%float (-5)%float))
        - targetY dragging64)%js
       (decimal (-45) 100)
     = false.
Proof. vm_compute; split; reflexivity. Qed.



Lemma pan_intent_keeps_z (camera : Camera R) (rect : DOMRect R)
  (st : RigState R) (i : Input R) :
  isPanIntent i = true -> targetZ (dispatch camera rect st i) = targetZ st.
Proof.
  destruct i; cbn [isPanIntent dispatch]; try discriminate; intros _.
  - reflexivity.
  - unfold handleMouseMove; destruct (negb (isDragging st)); reflexivity.
  - reflexivity.
Qed.

(** C9. A sequence made of drag-start, drag-move and drag-end events only
    leaves [targetZ] at the value it had before the sequence. *)
Theorem pan_sequence_keeps_z (camera : Camera R) (rect : DOMRect R)
  (inputs : list (Input R)) (st : RigState R) :
  forallb isPanIntent inputs = true ->
  targetZ (run camera rect st inputs) = targetZ st.
Proof.
  unfold run; revert st.
  induction inputs as [|i rest IH]; intros st Hall; cbn [fold_left].
  - reflexivity.
  - cbn [forallb] in Hall; apply andb_true_iff in Hall as [Hi Hrest].
    rewrite (IH _ Hrest); now apply pan_intent_keeps_z.
Qed.

Lemma pan_sequence_keeps_z_witness :
  targetZ (run sampleCamera sampleRect (initialRig sampleCamera)
             [MouseDown (mkMouseEvent 10 10); MouseMove (mkMouseEvent 30 5);
              MouseMove (mkMouseEvent 7 90); MouseUp;
              MouseMove (mkMouseEvent 0 0)])
  = targetZ (initialRig sampleCamera).
Proof.
  apply pan_sequence_keeps_z; reflexivity.
Defined.

Lemma frames_succ {T : Type} `{Number T} (st : RigState T) (n : nat)
  (camera : Camera T) :
  frames (S n) st camera = useFrame st (frames n st camera).
Proof.
  revert camera; induction n as [|n IH]; intros camera.
  - reflexivity.
  - change (frames (S (S n)) st camera)
      with (frames (S n) st (useFrame st camera)).
    now rewrite IH.
Qed.

Lemma useFrame_axis (st : RigState R) (camera : Camera R) (a : Axis) :
  coord a (position (useFrame st camera)) - coord a (navigationTarget st)
  = (1 - DAMPING)
    * (coord a (position camera) - coord a (navigationTarget st)).
Proof.
  unfold useFrame, DAMPING, navigationTarget; js_R.
  destruct a; cbn [coord position vx vy vz]; lra.
Qed.

Lemma frames_axis (st : RigState R) (camera : Camera R) (a : Axis) (n : nat) :
  coord a (position (frames n st camera)) - coord a (navigationTarget st)
  = (1 - DAMPING) ^ n
    * (coord a (position camera) - coord a (navigationTarget st)).
Proof.
  induction n as [|n IH].
  - cbn [frames pow]; lra.
  - rewrite frames_succ, useFrame_axis, IH; cbn [pow]; lra.
Qed.

Lemma DAMPING_range : DAMPING (T := R) = 1 / 10 /\ 0 < DAMPING (T := R) < 1.
Proof. unfold DAMPING; js_R; split; lra. Qed.

Lemma useFrame_keeps_stalled_x (camera : Camera float) :
  vx (position camera) = 0x1.7fffffffffffcp+1%float ->
  vx (position (useFrame focused64 camera)) = 0x1.7fffffffffffcp+1%float.
Proof.
  intros Hx; unfold useFrame; cbn [position vx]; rewrite Hx.
  vm_compute; reflexivity.
Qed.

(** C3 (as the code behaves). One [useFrame] tick sets every axis of the
    camera to [pose + (target - pose) * 0.1], evaluated in the program's
    arithmetic. In exact arithmetic, with the target held fixed, the
    distance to the target on each axis is multiplied by exactly
    [1 - DAMPING] per frame, [DAMPING = 0.1], so after [n] frames it is
    [(1 - DAMPING)^n] times the initial one and tends to zero; the pose stays
    on the side of the target it started on and its distance never grows. In
    binary64 each tick is rounded: the first one from (0, 0, 10) toward
    (3, -6, 0) gives (0.30000000000000004, -0.6000000000000001, 9). *)
Theorem damping_contraction :
  (forall (T : Type) (N : Number T) (st : RigState T) (camera : Camera T)
          (a : Axis),
      coord a (position (useFrame st camera))
      = (coord a (position camera)
         + (coord a (navigationTarget st) - coord a (position camera))
           * decimal 1 10)%js)
  /\ (forall (st : RigState R) (camera : Camera R) (a : Axis),
        let t := coord a (navigationTarget st) in
        let p := fun n => coord a (position (frames n st camera)) in
        (DAMPING (T := R) = 1 / 10 /\ 0 < DAMPING (T := R) < 1)
        /\ (forall n, Rabs (p (S n) - t) = (1 - DAMPING) * Rabs (p n - t))
        /\ (forall n, p n - t = (1 - DAMPING) ^ n * (p O - t))
        /\ (forall eps, 0 < eps ->
              exists N, forall n, (N <= n)%nat -> Rabs (p n - t) < eps)
        /\ (forall n, 0 <= (p n - t) * (p O - t))
        /\ (forall n, Rabs (p (S n) - t) <= Rabs (p n - t)))
  /\ position (frames 1 focused64 camera64)
     = mkVector3 0x1.3333333333334p-2%float (-0x1.3333333333334p-1)%float
                 9%float.
Proof.
  split; [|split].
  { intros T N st camera a; destruct a; reflexivity. }
  2: { vm_compute; reflexivity. }
  intros st camera a t p.
  pose proof DAMPING_range as [Hd Hr].
  assert (Hstep : forall n, p (S n) - t = (1 - DAMPING) * (p n - t)).
  { intros n; unfold p, t; rewrite frames_succ; apply useFrame_axis. }
  assert (Habs : forall n, Rabs (p (S n) - t) = (1 - DAMPING) * Rabs (p n - t)).
  { intros n; rewrite Hstep, Rabs_mult, (Rabs_pos_eq (1 - DAMPING)); lra. }
  assert (Hpow : forall n, p n - t = (1 - DAMPING) ^ n * (p O - t)).
  { intros n; unfold p, t; apply frames_axis. }
  split; [split; assumption|].
  split; [exact Habs|].
  split; [exact Hpow|].
  split.
  { intros eps Heps.
    destruct (Req_dec_T (p O - t) 0) as [Hz|Hnz].
    - exists O; intros n _; rewrite Hpow, Hz, Rmult_0_r, Rabs_R0; exact Heps.
    - assert (Hpos : 0 < Rabs (p O - t)) by now apply Rabs_pos_lt.
      destruct (pow_lt_1_zero (1 - DAMPING)) with (y := eps / Rabs (p O - t))
        as [N HN].
      + rewrite Rabs_pos_eq; lra.
      + now apply Rdiv_lt_0_compat.
      + exists N; intros n Hn.
        rewrite Hpow, Rabs_mult.
        apply Rmult_lt_reg_r with (r := / Rabs (p O - t)).
        * now apply Rinv_0_lt_compat.
        * rewrite Rmult_assoc, Rinv_r, Rmult_1_r by lra.
          apply HN; lia. }
  split.
  { intros n; rewrite Hpow.
    replace ((1 - DAMPING) ^ n * (p O - t) * (p O - t))
      with ((1 - DAMPING) ^ n * ((p O - t) * (p O - t))) by ring.
    apply Rmult_le_pos.
    - apply pow_le; lra.
    - apply Rle_0_sqr. }
  { intros n; rewrite Habs.
    pose proof (Rabs_pos (p n - t)).
    rewrite <- (Rmult_1_l (Rabs (p n - t))) at 2.
    apply Rmult_le_compat_r; lra. }
Qed.

(** C3, as stated, fails in the arithmetic the program runs on: gliding from
    (0, 0, 10) toward the target (3, -6, 0), the camera's x reaches
    2.9999999999999982 by frame 400 and stays there for ever, short of the
    target 3; so the distance does not tend to zero, and from then on it is
    not multiplied by 0.9 either. *)
Lemma damping_stalls_binary64 :
  (forall n,
      vx (position (frames (400 + n) focused64 camera64))
      = 0x1.7fffffffffffcp+1%float)
  /\ PrimFloat.eqb 0x1.7fffffffffffcp+1%float (targetX focused64) = false
  /\ PrimFloat.eqb
       (PrimFloat.abs
          (vx (position (frames 401 focused64 camera64))
           - targetX focused64)%js)
       ((1%float - decimal 1 10)
        * PrimFloat.abs
            (vx (position (frames 400 focused64 camera64))
             - targetX focused64))%js
     = false.
Proof.
  split; [|split; vm_compute; reflexivity].
  induction n as [|n IH].
  - vm_compute; reflexivity.
  - rewrite Nat.add_succ_r, frames_succ.
    now apply useFrame_keeps_stalled_x.
Qed.

(** ** Normalisation and the ray through the pointer *)

Lemma sum_sqr_zero (x y z : R) :
  x * x + y * y + z * z = 0 -> x = 0 /\ y = 0 /\ z = 0.
Proof.
  intros Hs.
  pose proof (Rle_0_sqr x) as Hx; pose proof (Rle_0_sqr y) as Hy;
    pose proof (Rle_0_sqr z) as Hz; unfold Rsqr in *.
  assert (x * x = 0 /\ y * y = 0 /\ z * z = 0) as (Ex & Ey & Ez)
    by (repeat split; lra).
  repeat split; now apply Rsqr_0_uniq.
Qed.

Lemma sum_sqr_nonneg (x y z : R) : 0 <= x * x + y * y + z * z.
Proof.
  pose proof (Rle_0_sqr x); pose proof (Rle_0_sqr y);
    pose proof (Rle_0_sqr z); unfold Rsqr in *; lra.
Qed.

Lemma length3_zero_iff (v : Vector3 R) :
  length3 v = 0 <-> v = mkVector3 0 0 0.
Proof.
  destruct v as [x y z]; unfold length3; js_R; cbn [vx vy vz]; split.
  - intros Hl.
    apply sqrt_eq_0 in Hl; [|apply sum_sqr_nonneg].
    apply sum_sqr_zero in Hl as (-> & -> & ->); reflexivity.
  - intros Hv; injection Hv as -> -> ->.
    replace (0 * 0 + 0 * 0 + 0 * 0) with 0 by ring; apply sqrt_0.
Qed.

Lemma length3_nonneg (v : Vector3 R) : 0 <= length3 v.
Proof. unfold length3; js_R; apply sqrt_pos. Qed.


Lemma normalize_zero : normalize (mkVector3 0 0 0) = mkVector3 (T := R) 0 0 0.
Proof.
  unfold normalize, divideScalar, multiplyScalar; js_R; cbn [vx vy vz].
  f_equal; ring.
Qed.

Lemma normalize_nonzero (v : Vector3 R) :
  v <> mkVector3 0 0 0 ->
  0 < length3 v
  /\ normalize v = multiplyScalar v (1 / length3 v)
  /\ length3 (normalize v) = 1.
Proof.
  intros Hv.
  assert (Hl : length3 v <> 0) by (intros E; now apply length3_zero_iff in E).
  pose proof (length3_nonneg v) as Hn.
  assert (Hpos : 0 < length3 v) by lra.
  assert (Hnorm : normalize v = multiplyScalar v (1 / length3 v)).
  { unfold normalize, divideScalar, orElse; cbn [truthy Number_R ofZ div].
    unfold R_truthy; destruct (Req_dec_T (length3 v) 0); [contradiction|].
    reflexivity. }
  repeat split; try assumption.
  rewrite Hnorm; destruct v as [x y z].
  unfold length3, multiplyScalar in *; js_R; cbn [vx vy vz] in *.
  pose proof (sum_sqr_nonneg x y z) as Hs.
  set (s := x * x + y * y + z * z) in *.
  set (l := R_sqrt.sqrt s) in *.
  assert (Hll : l * l = s) by (now apply sqrt_sqrt).
  replace (x * (1 / l) * (x * (1 / l)) + y * (1 / l) * (y * (1 / l))
           + z * (1 / l) * (z * (1 / l)))
    with ((x * x + y * y + z * z) / (l * l)) by (field; lra).
  fold s; rewrite Hll.
  replace (s / s) with 1; [apply sqrt_1|].
  field; intros E; rewrite E in Hll; nra.
Qed.

Lemma length3_axis_z (w : R) : 0 <= w -> length3 (mkVector3 0 0 (- w)) = w.
Proof.
  intros Hw; unfold length3; js_R; cbn [vx vy vz].
  replace (0 * 0 + 0 * 0 + - w * - w) with (w * w) by ring.
  now apply sqrt_square.
Qed.

Lemma normalize_axis_z (w : R) :
  0 < w -> normalize (mkVector3 0 0 (- w)) = mkVector3 0 0 (-1).
Proof.
  intros Hw.
  destruct (normalize_nonzero (v := mkVector3 0 0 (- w))) as (_ & Hn & _).
  { intros E; injection E as E; lra. }
  rewrite Hn, length3_axis_z by lra.
  unfold multiplyScalar; cbn [vx vy vz]; js_R; f_equal; field; lra.
Qed.

Lemma length3_scale (v : Vector3 R) (k : R) :
  0 <= k -> length3 (multiplyScalar v k) = k * length3 v.
Proof.
  intros Hk; destruct v as [x y z].
  unfold length3, multiplyScalar; js_R; cbn [vx vy vz].
  replace (x * k * (x * k) + y * k * (y * k) + z * k * (z * k))
    with (k * k * (x * x + y * y + z * z)) by ring.
  rewrite sqrt_mult; [|nra|apply sum_sqr_nonneg].
  now rewrite sqrt_square.
Qed.

(** Normalising forgets a positive scale. *)
Lemma normalize_scale (v : Vector3 R) (k : R) :
  0 < k -> normalize (multiplyScalar v k) = normalize v.
Proof.
  intros Hk.
  destruct (Req_dec_T (length3 v) 0) as [Hz|Hnz].
  - apply length3_zero_iff in Hz; subst v.
    unfold multiplyScalar; cbn [vx vy vz]; js_R.
    now replace (0 * k) with 0 by ring.
  - assert (Hv : v <> mkVector3 0 0 0)
      by (intros E; apply Hnz; now apply length3_zero_iff).
    assert (Hkv : multiplyScalar v k <> mkVector3 0 0 0).
    { intros E; apply length3_zero_iff in E.
      rewrite length3_scale in E by lra.
      apply Rmult_integral in E as [E|E]; [lra|contradiction]. }
    destruct (normalize_nonzero Hv) as (Hl & -> & _).
    destruct (normalize_nonzero Hkv) as (_ & -> & _).
    rewrite length3_scale by lra.
    destruct v as [x y z]; unfold multiplyScalar; cbn [vx vy vz]; js_R.
    set (l := length3 _) in *.
    f_equal; field; lra.
Qed.

Lemma normalize_idem (v : Vector3 R) : normalize (normalize v) = normalize v.
Proof.
  destruct (Req_dec_T (length3 v) 0) as [Hz|Hnz].
  - apply length3_zero_iff in Hz; subst v.
    now rewrite !normalize_zero.
  - assert (Hv : v <> mkVector3 0 0 0)
      by (intros E; apply Hnz; now apply length3_zero_iff).
    destruct (normalize_nonzero Hv) as (_ & _ & Hu).
    assert (Hn : normalize v <> mkVector3 0 0 0).
    { intros E; apply length3_zero_iff in E; lra. }
    destruct (normalize_nonzero Hn) as (_ & -> & _).
    rewrite Hu; destruct (normalize v) as [x y z].
    unfold multiplyScalar; cbn [vx vy vz]; js_R; f_equal; field.
Qed.

Lemma applyMatrix4_translation (v p : Vector3 R) :
  applyMatrix4 v (makeTranslation p) = v3add v p.
Proof.
  destruct v as [x y z], p as [a b c].
  unfold applyMatrix4, makeTranslation, v3add, el.
  cbn [elements nth vx vy vz]; js_R.
  f_equal; field.
Qed.

Lemma frustum_unproject (tanHalfFov aspect near far X Y : R) :
  0 < tanHalfFov -> 0 < aspect -> 0 < near < far ->
  applyMatrix4 (mkVector3 X Y (decimal 5 10))
    (frustum makePerspectiveInverse tanHalfFov aspect near far)
  = multiplyScalar (mkVector3 (X * aspect * tanHalfFov) (Y * tanHalfFov) (-1))
                   (unprojectDepth near far).
Proof.
  intros Ht Ha [Hn Hf].
  assert (Hnt : 0 < near * tanHalfFov) by now apply Rmult_lt_0_compat.
  assert (Hant : 0 < aspect * (near * tanHalfFov))
    by now apply Rmult_lt_0_compat.
  unfold applyMatrix4, frustum, makePerspectiveInverse, multiplyScalar,
    unprojectDepth, el.
  cbn [elements nth vx vy vz]; js_R.
  f_equal; field; repeat split; lra.
Qed.

(** The ray the canvas camera casts through the NDC point (X, Y): it starts
    where the world matrix puts the camera and points along
    (X * aspect * tanHalfFov, Y * tanHalfFov, -1). *)
Lemma canvas_ray (p : Vector3 R) (tanHalfFov aspect near far X Y : R) :
  0 < tanHalfFov -> 0 < aspect -> 0 < near < far ->
  setFromCamera (mkVector2 X Y) (canvasCamera p tanHalfFov aspect near far)
  = mkRay p
      (normalize
         (mkVector3 (X * aspect * tanHalfFov) (Y * tanHalfFov) (-1))).
Proof.
  intros Ht Ha Hnf.
  unfold setFromCamera, unproject, canvasCamera.
  cbn [matrixWorld projectionMatrixInverse v2x v2y].
  rewrite frustum_unproject, applyMatrix4_translation by assumption.
  assert (Ho : setFromMatrixPosition (makeTranslation p) = p)
    by (now destruct p).
  rewrite Ho; f_equal.
  set (d := mkVector3 _ _ _).
  assert (Hd : 0 < unprojectDepth near far).
  { unfold unprojectDepth; apply Rdiv_lt_0_compat; nra. }
  rewrite <- (normalize_scale d Hd); f_equal.
  destruct p as [x y z]; unfold v3sub, v3add, multiplyScalar.
  cbn [vx vy vz]; js_R; f_equal; ring.
Qed.

(** ** The modifier wheel: zoom toward the cursor *)

Lemma pointerNDC_center (rect : DOMRect R) (e : MouseEvent R) :
  width rect <> 0 -> height rect <> 0 ->
  clientX e = left rect + width rect / 2 ->
  clientY e = top rect + height rect / 2 ->
  pointerNDC rect e = mkVector2 0 0.
Proof.
  intros Hw Hh Hx Hy; unfold pointerNDC; js_R; rewrite Hx, Hy.
  f_equal; field; assumption.
Qed.

Lemma handleWheel_zoom (camera : Camera R) (rect : DOMRect R)
  (st : RigState R) (e : WheelEvent R) :
  ctrlPressed st = true ->
  handleWheel camera rect st e
  = let d := zoomDirection camera
               (zoomPoint (setFromCamera (pointerNDC rect (pointer e)) camera))
    in
    mkRigState (targetX st + vx d * (- deltaY e * ZOOM_GAIN))
               (targetY st + vy d * (- deltaY e * ZOOM_GAIN))
               (targetZ st + vz d * (- deltaY e * ZOOM_GAIN))
               true (isDragging st) (lastMouse st).
Proof. intros Hc; unfold handleWheel; rewrite Hc; reflexivity. Qed.

Lemma ZOOM_GAIN_value : ZOOM_GAIN (T := R) = 1 / 2.
Proof. unfold ZOOM_GAIN; js_R; lra. Qed.

(** The geometry of the centre scenario: camera at (0, 0, 10), pointer at
    NDC (0, 0). *)
Lemma center_zoom_geometry (tanHalfFov aspect near far : R) :
  0 < tanHalfFov -> 0 < aspect -> 0 < near < far ->
  let camera := canvasCamera canvasCameraPosition tanHalfFov aspect near far in
  let ray := setFromCamera (mkVector2 0 0) camera in
  ray = mkRay (mkVector3 0 0 10) (mkVector3 0 0 (-1))
  /\ zoomPoint ray = mkVector3 0 0 0
  /\ zoomDirection camera (zoomPoint ray) = mkVector3 0 0 (-1).
Proof.
  intros Ht Ha Hnf camera ray.
  assert (Hray : ray = mkRay (mkVector3 0 0 10) (mkVector3 0 0 (-1))).
  { unfold ray, camera; rewrite canvas_ray by assumption.
    unfold canvasCameraPosition; js_R; f_equal.
    replace (0 * aspect * tanHalfFov) with 0 by ring.
    replace (0 * tanHalfFov) with 0 by ring.
    apply (normalize_axis_z Rlt_0_1). }
  assert (Hpoint : zoomPoint ray = mkVector3 0 0 0).
  { rewrite Hray; unfold zoomPoint, v3add, multiplyScalar.
    cbn [origin direction vx vy vz]; js_R; f_equal; ring. }
  repeat split; try assumption.
  rewrite Hpoint; unfold zoomDirection, camera, canvasCamera, v3sub.
  cbn [position canvasCameraPosition vx vy vz]; js_R.
  replace (0 - 0) with 0 by ring.
  replace (0 - 10) with (Ropp 10) by ring.
  apply (normalize_axis_z (w := 10)); lra.
Qed.

Lemma sample_tan_pos : 0 < tan (PI / 180 * (5 / 10) * 75).
Proof.
  pose proof PI_RGT_0 as Hpi.
  apply tan_gt_0; lra.
Qed.

Lemma sample_center_geometry :
  setFromCamera (pointerNDC sampleRect (pointer (centerWheel (-20))))
                sampleCamera
  = mkRay (mkVector3 0 0 10) (mkVector3 0 0 (-1))
  /\ zoomPoint
       (setFromCamera (pointerNDC sampleRect (pointer (centerWheel (-20))))
                      sampleCamera)
     = mkVector3 0 0 0
  /\ zoomDirection sampleCamera
       (zoomPoint
          (setFromCamera (pointerNDC sampleRect (pointer (centerWheel (-20))))
                         sampleCamera))
     = mkVector3 0 0 (-1).
Proof.
  assert (Hndc : pointerNDC sampleRect (pointer (centerWheel (-20)))
                 = mkVector2 0 0).
  { apply pointerNDC_center; cbn; lra. }
  rewrite Hndc.
  apply (center_zoom_geometry sample_tan_pos); lra.
Qed.

Lemma frustum_project (tanHalfFov aspect near far x y z : R) :
  0 < tanHalfFov -> 0 < aspect -> 0 < near < far -> z < 0 ->
  vx (applyMatrix4 (mkVector3 x y z)
        (frustum makePerspective tanHalfFov aspect near far))
  = x / (aspect * tanHalfFov * - z)
  /\ vy (applyMatrix4 (mkVector3 x y z)
           (frustum makePerspective tanHalfFov aspect near far))
     = y / (tanHalfFov * - z).
Proof.
  intros Ht Ha [Hn Hf] Hz.
  assert (Hnt : 0 < near * tanHalfFov) by now apply Rmult_lt_0_compat.
  assert (Hant : 0 < aspect * (near * tanHalfFov))
    by now apply Rmult_lt_0_compat.
  unfold applyMatrix4, frustum, makePerspective, el.
  cbn [elements nth vx vy vz]; js_R.
  split; field; repeat split; lra.
Qed.

(** Every point of the ray the canvas camera casts through the NDC point
    (X, Y) is drawn by that camera at (X, Y): the ray passes through the
    pointer. The ray has unit direction and starts at the camera. *)
Lemma canvas_ray_through_pointer (p : Vector3 R)
  (tanHalfFov aspect near far X Y : R) :
  0 < tanHalfFov -> 0 < aspect -> 0 < near < far ->
  origin (setFromCamera (mkVector2 X Y)
            (canvasCamera p tanHalfFov aspect near far)) = p
  /\ length3
       (direction (setFromCamera (mkVector2 X Y)
                     (canvasCamera p tanHalfFov aspect near far))) = 1
  /\ forall s, 0 < s ->
       vx (canvasProject p tanHalfFov aspect near far
             (v3add p
                (multiplyScalar
                   (direction
                      (setFromCamera (mkVector2 X Y)
                         (canvasCamera p tanHalfFov aspect near far))) s)))
       = X
       /\ vy (canvasProject p tanHalfFov aspect near far
                (v3add p
                   (multiplyScalar
                      (direction
                         (setFromCamera (mkVector2 X Y)
                            (canvasCamera p tanHalfFov aspect near far))) s)))
          = Y.
Proof.
  intros Ht Ha Hnf; rewrite canvas_ray by assumption.
  cbn [origin direction].
  set (v := mkVector3 (X * aspect * tanHalfFov) (Y * tanHalfFov) (-1)).
  assert (Hv : v <> mkVector3 0 0 0)
    by (unfold v; intros E; injection E as _ _ E; lra).
  destruct (normalize_nonzero Hv) as (Hl & Hn & Hu).
  split; [reflexivity|]. split; [exact Hu|].
  intros s Hs; rewrite Hn.
  set (k := 1 / length3 v) in *.
  assert (Hk : 0 < k) by (unfold k; apply Rdiv_lt_0_compat; lra).
  assert (Hks : 0 < k * s) by now apply Rmult_lt_0_compat.
  unfold canvasProject; rewrite applyMatrix4_translation.
  assert (Hcam : v3add (v3add p (multiplyScalar (multiplyScalar v k) s))
                   (mkVector3 (- vx p) (- vy p) (- vz p))%js
                 = mkVector3 (X * aspect * tanHalfFov * (k * s))
                             (Y * tanHalfFov * (k * s)) (- (k * s))).
  { destruct p as [a b c]; unfold v3add, multiplyScalar, v.
    cbn [vx vy vz]; js_R; f_equal; ring. }
  rewrite Hcam.
  destruct (@frustum_project tanHalfFov aspect near far
              (X * aspect * tanHalfFov * (k * s))
              (Y * tanHalfFov * (k * s)) (- (k * s)) Ht Ha Hnf) as [Px Py];
    [lra|].
  rewrite Px, Py; split; field; lra.
Qed.

(** C2 (as the code behaves). With the modifier held, every wheel event casts
    the ray through the pointer (NDC x = ((clientX - left) / width) * 2 - 1,
    y = -((clientY - top) / height) * 2 + 1), takes the point 10 units along
    it, and adds to all three target components the direction
    [normalize(point - camera.position)] scaled by
    [zoomFactor = -deltaY * 0.5]; the other refs stay. In exact arithmetic,
    for the canvas camera, the ray starts at the camera, every point of it is
    drawn at the pointer, the point is at distance 10 and the direction is
    the ray's own, of length one; for any camera the direction has length one
    and points from the camera to the point whenever the two differ. In
    binary64 the length is one up to rounding only. *)
Theorem wheel_zoom_toward_cursor :
  (forall (T : Type) (N : Number T) (camera : Camera T) (rect : DOMRect T)
          (st : RigState T) (e : WheelEvent T),
      ctrlPressed st = true ->
      let ndc :=
        mkVector2
          (((clientX (pointer e) - left rect) / width rect) * ofZ 2 - ofZ 1)%js
          ((- ((clientY (pointer e) - top rect) / height rect)) * ofZ 2
           + ofZ 1)%js in
      let ray := setFromCamera ndc camera in
      let point := v3add (origin ray) (multiplyScalar (direction ray) (ofZ 10)) in
      let dir := normalize (v3sub point (position camera)) in
      let zoomFactor := ((- deltaY e) * decimal 5 10)%js in
      handleWheel camera rect st e
      = mkRigState (targetX st + vx dir * zoomFactor)%js
                   (targetY st + vy dir * zoomFactor)%js
                   (targetZ st + vz dir * zoomFactor)%js
                   (ctrlPressed st) (isDragging st) (lastMouse st))
  /\ (decimal (T := R) 5 10 = 1 / 2 /\ 0 < decimal (T := R) 5 10)
  /\ (forall (p : Vector3 R) (tanHalfFov aspect near far X Y : R),
        0 < tanHalfFov -> 0 < aspect -> 0 < near < far ->
        let camera := canvasCamera p tanHalfFov aspect near far in
        let ray := setFromCamera (mkVector2 X Y) camera in
        let point := v3add (origin ray) (multiplyScalar (direction ray) 10) in
        origin ray = position camera
        /\ length3 (direction ray) = 1
        /\ (forall s, 0 < s ->
              vx (canvasProject p tanHalfFov aspect near far
                    (v3add (origin ray) (multiplyScalar (direction ray) s)))
              = X
              /\ vy (canvasProject p tanHalfFov aspect near far
                       (v3add (origin ray)
                          (multiplyScalar (direction ray) s)))
                 = Y)
        /\ length3 (v3sub point (origin ray)) = 10
        /\ normalize (v3sub point (position camera)) = direction ray)
  /\ (forall (camera : Camera R) (point : Vector3 R),
        v3sub point (position camera) <> mkVector3 0 0 0 ->
        length3 (normalize (v3sub point (position camera))) = 1
        /\ exists k, 0 < k
             /\ v3sub point (position camera)
                = multiplyScalar
                    (normalize (v3sub point (position camera))) k)
  /\ PrimFloat.ltb
       (PrimFloat.abs
          (length3
             (zoomDirection camera64
                (zoomPoint
                   (setFromCamera (pointerNDC rect64 offCentre64) camera64)))
           - 1%float)%js)
       0x1p-50%float
     = true.
Proof.
  split; [|split; [|split; [|split]]].
  - intros T N camera rect st e Hc; cbv zeta.
    unfold handleWheel; rewrite Hc; reflexivity.
  - js_R; split; lra.
  - intros p tanHalfFov aspect near far X Y Ht Ha Hnf camera ray point.
    destruct (@canvas_ray_through_pointer p tanHalfFov aspect near far X Y
                Ht Ha Hnf) as (Ho & Hu & Hthrough).
    fold camera in Ho, Hu, Hthrough; fold ray in Ho, Hu, Hthrough.
    assert (Hdiff : v3sub point (origin ray)
                    = multiplyScalar (direction ray) 10).
    { unfold point; destruct (origin ray) as [a b c].
      destruct (direction ray) as [x y z].
      unfold v3sub, v3add, multiplyScalar; cbn [vx vy vz]; js_R.
      f_equal; ring. }
    split; [exact Ho|]. split; [exact Hu|].
    split; [intros s Hs; rewrite Ho; now apply Hthrough|].
    split.
    + rewrite Hdiff, length3_scale, Hu by lra; ring.
    + change (position camera) with p; rewrite <- Ho, Hdiff.
      rewrite normalize_scale by lra.
      unfold ray, camera; rewrite canvas_ray by assumption.
      cbn [direction]; apply normalize_idem.
  - intros camera point Hne.
    destruct (normalize_nonzero Hne) as (Hl & Hn & Hu).
    split; [exact Hu|].
    exists (length3 (v3sub point (position camera))); split; [exact Hl|].
    rewrite Hn.
    destruct (v3sub point (position camera)) as [x y z].
    unfold multiplyScalar; cbn [vx vy vz]; js_R.
    set (l := length3 _) in *.
    f_equal; field; lra.
  - vm_compute; reflexivity.
Qed.

Lemma wheel_zoom_toward_cursor_witness :
  handleWheel camera64 rect64 zooming64
    (mkWheelEvent offCentre64 (-20)%float)
  = mkRigState 0x1.13d2e79c97edcp+2%float 0x1.9dbc5b6ae3e4cp+1%float
               0x1.933c76d038a38p+0%float true false
               (mkPoint 0%float 0%float)
  /\ length3
       (direction
          (setFromCamera (mkVector2 (1 / 2) (1 / 2)) sampleCamera)) = 1.
Proof.
  destruct wheel_zoom_toward_cursor as (Hany & _ & Hgeo & _).
  split.
  - rewrite (Hany float Number_binary64 camera64 rect64 zooming64
               (mkWheelEvent offCentre64 (-20)%float) eq_refl).
    vm_compute; reflexivity.
  - apply (Hgeo canvasCameraPosition (tan (PI / 180 * (5 / 10) * 75))
             (800 / 600) (1 / 10) 1000 (1 / 2) (1 / 2)).
    + exact sample_tan_pos.
    + lra.
    + lra.
Defined.

(** C2, as stated, fails in the arithmetic the program runs on: with the
    pointer at (600, 150) on the 800 x 600 canvas the direction added to the
    target does not have length one. *)
Lemma zoom_direction_not_unit64 :
  PrimFloat.eqb
    (length3
       (zoomDirection camera64
          (zoomPoint
             (setFromCamera (pointerNDC rect64 offCentre64) camera64))))
    1%float
  = false.
Proof. vm_compute; reflexivity. Qed.

(** C1 (as the code behaves). Modifier held, canvas camera at (0, 0, 10)
    looking down -z, pointer at the centre of the canvas, [deltaY = -20]: the
    pointer is at NDC (0, 0), the ray points along (0, 0, -1), the point 10
    units along it is the origin, the zoom direction from the camera to that
    point is (0, 0, -1), [zoomFactor] is 10, and the handler moves the target
    toward the point: [targetZ] changes by -10, [targetX] and [targetY] stay. *)
Theorem wheel_zoom_center_scenario (tanHalfFov aspect near far : R)
  (rect : DOMRect R) (st : RigState R) (e : WheelEvent R) :
  0 < tanHalfFov -> 0 < aspect -> 0 < near < far ->
  width rect <> 0 -> height rect <> 0 ->
  clientX (pointer e) = left rect + width rect / 2 ->
  clientY (pointer e) = top rect + height rect / 2 ->
  ctrlPressed st = true ->
  deltaY e = -20 ->
  let camera := canvasCamera canvasCameraPosition tanHalfFov aspect near far in
  let ray := setFromCamera (pointerNDC rect (pointer e)) camera in
  position camera = mkVector3 0 0 10
  /\ pointerNDC rect (pointer e) = mkVector2 0 0
  /\ direction ray = mkVector3 0 0 (-1)
  /\ zoomPoint ray = mkVector3 0 0 0
  /\ zoomDirection camera (zoomPoint ray) = mkVector3 0 0 (-1)
  /\ - deltaY e * ZOOM_GAIN = 10
  /\ targetZ (handleWheel camera rect st e) - targetZ st = -10
  /\ targetX (handleWheel camera rect st e) = targetX st
  /\ targetY (handleWheel camera rect st e) = targetY st.
Proof.
  intros Ht Ha Hnf Hw Hh Hx Hy Hc Hd camera ray.
  pose proof (pointerNDC_center rect (pointer e) Hw Hh Hx Hy) as Hndc.
  destruct (center_zoom_geometry Ht Ha Hnf) as (Hray & Hpoint & Hdir).
  fold camera in Hray, Hpoint, Hdir.
  unfold ray; rewrite (handleWheel_zoom camera rect st e Hc), Hndc.
  cbv zeta; rewrite Hdir, Hray, Hd, ZOOM_GAIN_value.
  cbn [direction targetX targetY targetZ vx vy vz].
  rewrite Hray in Hpoint.
  repeat split; try reflexivity; try assumption; lra.
Qed.

Lemma wheel_zoom_center_scenario_witness :
  targetZ (handleWheel sampleCamera sampleRect sampleZooming
             (centerWheel (-20)))
  - targetZ sampleZooming = -10.
Proof.
  assert (Hs : 0 < tan (PI / 180 * (5 / 10) * 75)) by exact sample_tan_pos.
  destruct (@wheel_zoom_center_scenario (tan (PI / 180 * (5 / 10) * 75))
              (800 / 600) (1 / 10) 1000 sampleRect sampleZooming
              (centerWheel (-20)))
    as (_ & _ & _ & _ & _ & _ & Hz & _); try (cbn; lra); try reflexivity.
  exact Hz.
Defined.

(** C1, as stated, fails: in the centre scenario the zoom direction is not
    (0, 0, 1) and [targetZ] does not change by +10. *)
Lemma wheel_zoom_center_not_plus_ten :
  zoomDirection sampleCamera
    (zoomPoint
       (setFromCamera (pointerNDC sampleRect (pointer (centerWheel (-20))))
                      sampleCamera))
  <> mkVector3 0 0 1
  /\ targetZ (handleWheel sampleCamera sampleRect sampleZooming
                (centerWheel (-20)))
     - targetZ sampleZooming <> 10.
Proof.
  destruct sample_center_geometry as (_ & _ & Hdir).
  split.
  - rewrite Hdir; intros E; injection E as E; lra.
  - rewrite (handleWheel_zoom sampleCamera sampleRect sampleZooming
               (centerWheel (-20)) eq_refl).
    cbv zeta; rewrite Hdir, ZOOM_GAIN_value.
    cbn [targetZ sampleZooming deltaY centerWheel vz]; lra.
Qed.



(** * Properties in binary64 *)

(** The decimal literals of the program denote the doubles the model uses. *)
Lemma decimal_literals_binary64 :
  decimal (T := float) 5 10 = 0x1p-1%float
  /\ decimal (T := float) 6 100 = 0x1.eb851eb851eb8p-5%float
  /\ decimal (T := float) 9 100 = 0x1.70a3d70a3d70ap-4%float
  /\ decimal (T := float) 1 10 = 0x1.999999999999ap-4%float
  /\ decimal (T := float) 5 100 = 0x1.999999999999ap-5%float.
Proof. vm_compute; repeat split. Qed.


(** * Properties that hold for every number type

    Nothing below uses a law of arithmetic, so each statement holds for the
    reals and for binary64 alike. *)

Section AnyNumber.

Context {T : Type} `{Number T}.

Lemma run_app (camera : Camera T) (rect : DOMRect T) (st : RigState T)
  (xs ys : list (Input T)) :
  run camera rect st (xs ++ ys) = run camera rect (run camera rect st xs) ys.
Proof. unfold run; apply fold_left_app. Qed.

Lemma dispatch_ctrl (camera : Camera T) (rect : DOMRect T)
  (st st' : RigState T) (i : Input T) :
  ctrlPressed st = ctrlPressed st' ->
  ctrlPressed (dispatch camera rect st i)
  = if isKeyInput i then ctrlPressed (dispatch camera rect st' i)
    else ctrlPressed st'.
Proof.
  intros Hc; destruct i; cbn [dispatch isKeyInput];
    unfold handleKeyDown, handleKeyUp, handleWheel, handleMouseMove;
    repeat match goal with
           | |- context [if ?b then _ else _] => destruct b
           end; cbn [ctrlPressed handleMouseDown handleMouseUp reset focusOn];
    congruence.
Qed.

(** X1. Whether the modifier is held after a sequence of inputs is decided
    by the keyboard events of the sequence alone: wheel and mouse events and
    the control calls never touch [ctrlPressed]. *)
Theorem modifier_follows_keys (camera : Camera T) (rect : DOMRect T)
  (inputs : list (Input T)) (st : RigState T) :
  ctrlPressed (run camera rect st inputs)
  = ctrlPressed (run camera rect st (filter isKeyInput inputs)).
Proof.
  assert (Hgen : forall st1 st2, ctrlPressed st1 = ctrlPressed st2 ->
            ctrlPressed (run camera rect st1 inputs)
            = ctrlPressed (run camera rect st2 (filter isKeyInput inputs))).
  { unfold run; induction inputs as [|i rest IH]; intros st1 st2 Hc.
    - exact Hc.
    - cbn [fold_left filter].
      pose proof (dispatch_ctrl camera rect st1 st2 i Hc) as Hd.
      destruct (isKeyInput i); cbn [fold_left]; apply IH; exact Hd. }
  now apply Hgen.
Qed.

Lemma dispatch_drag (camera : Camera T) (rect : DOMRect T)
  (st st' : RigState T) (i : Input T) :
  isDragging st = isDragging st' ->
  isDragging (dispatch camera rect st i)
  = if isButtonInput i then isDragging (dispatch camera rect st' i)
    else isDragging st'.
Proof.
  intros Hc; destruct i; cbn [dispatch isButtonInput];
    unfold handleKeyDown, handleKeyUp, handleWheel, handleMouseMove;
    repeat match goal with
           | |- context [if ?b then _ else _] => destruct b
           end; cbn [isDragging handleMouseDown handleMouseUp reset focusOn];
    congruence.
Qed.

(** X2. Whether a drag is in progress after a sequence of inputs is decided
    by its [mousedown] and [mouseup] events alone; in particular it is
    in progress exactly when the last of them is a [mousedown]. *)
Theorem drag_follows_buttons (camera : Camera T) (rect : DOMRect T)
  (inputs : list (Input T)) (st : RigState T) :
  isDragging (run camera rect st inputs)
  = isDragging (run camera rect st (filter isButtonInput inputs))
  /\ (forall e, isDragging (run camera rect st (inputs ++ [MouseDown e]))
                = true)
  /\ isDragging (run camera rect st (inputs ++ [MouseUp])) = false.
Proof.
  assert (Hgen : forall st1 st2, isDragging st1 = isDragging st2 ->
            isDragging (run camera rect st1 inputs)
            = isDragging (run camera rect st2 (filter isButtonInput inputs))).
  { unfold run; induction inputs as [|i rest IH]; intros st1 st2 Hc.
    - exact Hc.
    - cbn [fold_left filter].
      pose proof (dispatch_drag camera rect st1 st2 i Hc) as Hd.
      destruct (isButtonInput i); cbn [fold_left]; apply IH; exact Hd. }
  split; [now apply Hgen|].
  split; [intros e|]; rewrite run_app; reflexivity.
Qed.

(** X3. While no drag is in progress, any number of [mousemove] events
    leaves every ref exactly as it was. *)
Theorem idle_moves_change_nothing (camera : Camera T) (rect : DOMRect T)
  (inputs : list (Input T)) (st : RigState T) :
  isDragging st = false ->
  forallb isMouseMove inputs = true ->
  run camera rect st inputs = st.
Proof.
  intros Hd; unfold run.
  induction inputs as [|i rest IH]; intros Hall; [reflexivity|].
  cbn [forallb] in Hall; apply andb_true_iff in Hall as [Hi Hrest].
  destruct i; try discriminate.
  cbn [fold_left dispatch]; unfold handleMouseMove; rewrite Hd.
  cbn [negb]; now apply IH.
Qed.

(** X4. Without the modifier the wheel handler looks at [deltaY] only: the
    camera, the bounding rectangle and the pointer position make no
    difference to the result. *)
Theorem plain_wheel_ignores_environment (camera camera' : Camera T)
  (rect rect' : DOMRect T) (st : RigState T) (e e' : WheelEvent T) :
  ctrlPressed st = false ->
  deltaY e = deltaY e' ->
  handleWheel camera rect st e = handleWheel camera' rect' st e'.
Proof.
  intros Hc Hd; unfold handleWheel; rewrite Hc, Hd; reflexivity.
Qed.

(** X5. A control call overrides whatever came before it: after any inputs,
    [reset] leaves the target at (0, 0, 10) and [focusOn x y z] at
    (x, y, z + 5); [reset] before [focusOn] has no lingering effect, and
    [focusOn] before [reset] has none either. *)
Theorem control_call_supersedes (camera : Camera T) (rect : DOMRect T)
  (inputs : list (Input T)) (st : RigState T) (x y z : T) :
  navigationTarget (run camera rect st (inputs ++ [CallReset]))
  = mkVector3 (ofZ 0) (ofZ 0) (ofZ 10)
  /\ navigationTarget (run camera rect st (inputs ++ [CallFocusOn x y z]))
     = mkVector3 x y (add z (ofZ 5))
  /\ focusOn x y z (reset st) = focusOn x y z st
  /\ reset (focusOn x y z st) = reset st
  /\ reset (reset st) = reset st.
Proof.
  repeat split; rewrite run_app; reflexivity.
Qed.

Lemma last_cons_default {A} (l : list A) (a d : A) :
  last (a :: l) d = last l a.
Proof.
  revert a d; induction l as [|b l IH]; intros a d; [reflexivity|].
  change (last (b :: l) d = last (b :: l) a).
  now rewrite (IH b d), (IH b a).
Qed.

Lemma last_map_default {A B} (f : A -> B) (l : list A) (d : A) :
  last (map f l) (f d) = f (last l d).
Proof.
  revert d; induction l as [|a l IH]; intros d; [reflexivity|].
  cbn [map]; rewrite !last_cons_default; apply IH.
Qed.

Lemma drag_moves (camera : Camera T) (rect : DOMRect T)
  (moves : list (MouseEvent T)) (st : RigState T) :
  isDragging st = true ->
  lastMouse (run camera rect st (map (fun e => MouseMove e) moves))
  = last (map (fun e => mkPoint (clientX e) (clientY e)) moves) (lastMouse st)
  /\ isDragging (run camera rect st (map (fun e => MouseMove e) moves)) = true
  /\ targetZ (run camera rect st (map (fun e => MouseMove e) moves))
     = targetZ st
  /\ ctrlPressed (run camera rect st (map (fun e => MouseMove e) moves))
     = ctrlPressed st.
Proof.
  unfold run; revert st.
  induction moves as [|e rest IH]; intros st Hd.
  - cbn [map last fold_left]; repeat split; assumption.
  - cbn [map fold_left dispatch].
    assert (Hs : handleMouseMove st e
                 = mkRigState
                     (sub (targetX st)
                        (mul (sub (clientX e) (px (lastMouse st)))
                           (decimal 9 100)))
                     (add (targetY st)
                        (mul (sub (clientY e) (py (lastMouse st)))
                           (decimal 9 100)))
                     (targetZ st) (ctrlPressed st) (isDragging st)
                     (mkPoint (clientX e) (clientY e))).
    { unfold handleMouseMove; rewrite Hd; reflexivity. }
    rewrite Hs.
    destruct (IH (mkRigState
                    (sub (targetX st)
                       (mul (sub (clientX e) (px (lastMouse st)))
                          (decimal 9 100)))
                    (add (targetY st)
                       (mul (sub (clientY e) (py (lastMouse st)))
                          (decimal 9 100)))
                    (targetZ st) (ctrlPressed st) (isDragging st)
                    (mkPoint (clientX e) (clientY e))) Hd)
      as (H1 & H2 & H3 & H4).
    rewrite H1, H2, H3, H4, last_cons_default; repeat split.
Qed.

(** X6. During a drag [lastMouse] always holds the most recent pointer
    position: after [mousedown] and any number of [mousemove] events it is the
    position of the last of them, the drag is still on, and [targetZ] and the
    modifier are as before; so the next [mousemove] pans by its delta to the
    previous event, not to the start of the drag. *)
Theorem drag_tracks_pointer (camera : Camera T) (rect : DOMRect T)
  (st : RigState T) (down : MouseEvent T) (moves : list (MouseEvent T))
  (next : MouseEvent T) :
  let final := last moves down in
  let st' :=
    run camera rect st (MouseDown down :: map (fun e => MouseMove e) moves) in
  lastMouse st' = mkPoint (clientX final) (clientY final)
  /\ isDragging st' = true
  /\ targetZ st' = targetZ st
  /\ ctrlPressed st' = ctrlPressed st
  /\ targetX (handleMouseMove st' next)
     = sub (targetX st')
         (mul (sub (clientX next) (clientX final)) (decimal 9 100))
  /\ targetY (handleMouseMove st' next)
     = add (targetY st')
         (mul (sub (clientY next) (clientY final)) (decimal 9 100)).
Proof.
  intros final st'.
  assert (Hst : st' = run camera rect (handleMouseDown st down)
                        (map (fun e => MouseMove e) moves)) by reflexivity.
  destruct (@drag_moves camera rect moves (handleMouseDown st down) eq_refl)
    as (H1 & H2 & H3 & H4).
  rewrite <- Hst in H1, H2, H3, H4.
  assert (Hl : lastMouse st' = mkPoint (clientX final) (clientY final)).
  { rewrite H1; unfold final; cbn [handleMouseDown lastMouse].
    apply (last_map_default
             (fun e : MouseEvent T => mkPoint (clientX e) (clientY e))). }
  split; [exact Hl|]. split; [exact H2|].
  split; [exact H3|]. split; [exact H4|].
  unfold handleMouseMove; rewrite H2, Hl; cbn [negb]; split; reflexivity.
Qed.

End AnyNumber.

(** * The zoom direction of the canvas camera *)




(** X11. A pointer inside the bounding rectangle of a canvas of positive
    size is mapped into [-1, 1] on both axes, with the vertical axis flipped:
    the left edge goes to -1 and the right edge to 1, the top edge to 1 and
    the bottom edge to -1. A pointer right of the rectangle is not rejected:
    it is mapped beyond 1. *)
Theorem pointer_ndc_range (rect : DOMRect R) (e : MouseEvent R) :
  0 < width rect -> 0 < height rect ->
  (left rect <= clientX e <= left rect + width rect ->
   -1 <= v2x (pointerNDC rect e) <= 1)
  /\ (top rect <= clientY e <= top rect + height rect ->
      -1 <= v2y (pointerNDC rect e) <= 1)
  /\ (clientX e = left rect -> v2x (pointerNDC rect e) = -1)
  /\ (clientX e = left rect + width rect -> v2x (pointerNDC rect e) = 1)
  /\ (clientY e = top rect -> v2y (pointerNDC rect e) = 1)
  /\ (clientY e = top rect + height rect -> v2y (pointerNDC rect e) = -1)
  /\ (left rect + width rect < clientX e -> 1 < v2x (pointerNDC rect e)).
Proof.
  intros Hw Hh; unfold pointerNDC; cbn [v2x v2y]; js_R.
  set (u := (clientX e - left rect) / width rect).
  set (v := (clientY e - top rect) / height rect).
  assert (Hu : clientX e - left rect = u * width rect)
    by (unfold u; field; lra).
  assert (Hv : clientY e - top rect = v * height rect)
    by (unfold v; field; lra).
  repeat split; intros; nra.
Qed.

Lemma pointer_ndc_range_witness :
  -1 <= v2x (pointerNDC sampleRect (mkMouseEvent 600 150)) <= 1
  /\ -1 <= v2y (pointerNDC sampleRect (mkMouseEvent 600 150)) <= 1.
Proof.
  assert (Hw : 0 < width sampleRect) by (cbn; lra).
  assert (Hh : 0 < height sampleRect) by (cbn; lra).
  destruct (@pointer_ndc_range sampleRect (mkMouseEvent 600 150) Hw Hh)
    as (Hx & Hy & _).
  split; [apply Hx|apply Hy]; cbn; lra.
Defined.

(** ** The grid of images *)

Lemma grid_column_bounds (i : nat) :
  0 <= IZR (Z.of_nat (i mod numCols)) <= 5.
Proof.
  assert (Hm : (i mod numCols < 6)%nat)
    by (apply Nat.mod_upper_bound; discriminate).
  split; apply IZR_le; lia.
Qed.

Lemma combine_seq_snd {A} (l : list A) (start : nat) :
  map snd (combine (seq start (List.length l)) l) = l.
Proof.
  revert start; induction l as [|a l IH]; intros start; [reflexivity|].
  cbn [List.length seq combine map snd]; now rewrite IH.
Qed.

(** X13. [Scene] lays the images out on a grid of six columns, 19 apart in
    x and 16 apart in y, filling rows from the top: x is one of -57 ... 38,
    y is never positive, the image six places later sits in the same column
    one row below, and two different indices never share both x and y. The
    depth is random within [-22.5, 22.5). Every image appears once, in
    order. *)
Theorem image_grid_layout (i j : nat) (r r' : R) (images : list string)
  (random : nat -> R) :
  vx (imagePosition i r) = (IZR (Z.of_nat (i mod 6)) - 3) * 19
  /\ vy (imagePosition i r) = - (IZR (Z.of_nat (i / 6)) * 16)
  /\ -57 <= vx (imagePosition i r) <= 38
  /\ vy (imagePosition i r) <= 0
  /\ vx (imagePosition (i + 6) r) = vx (imagePosition i r)
  /\ vy (imagePosition (i + 6) r) = vy (imagePosition i r) - 16
  /\ (vx (imagePosition i r) = vx (imagePosition j r') ->
      vy (imagePosition i r) = vy (imagePosition j r') -> i = j)
  /\ (0 <= r < 1 -> - (45 / 2) <= vz (imagePosition i r) < 45 / 2)
  /\ map fst (scene images random) = images.
Proof.
  pose proof (grid_column_bounds i) as Hc.
  assert (Hrow : 0 <= IZR (Z.of_nat (i / numCols)))
    by (apply IZR_le; lia).
  unfold imagePosition, spacingX, spacingY, ofNat, numCols in *.
  cbn [vx vy vz]; js_R.
  change (Z.of_nat 6) with 6%Z.
  split; [field|]. split; [reflexivity|].
  split; [lra|]. split; [lra|].
  split.
  { replace ((i + 6) mod 6)%nat with (i mod 6)%nat; [reflexivity|].
    replace (i + 6)%nat with (i + 1 * 6)%nat by lia.
    now rewrite Nat.Div0.mod_add. }
  split.
  { replace ((i + 6) / 6)%nat with (i / 6 + 1)%nat.
    - rewrite Nat2Z.inj_add, plus_IZR; change (Z.of_nat 1) with 1%Z; lra.
    - replace (i + 6)%nat with (i + 1 * 6)%nat by lia.
      rewrite Nat.div_add by discriminate; reflexivity. }
  split.
  { intros Hx Hy.
    assert (Hm : IZR (Z.of_nat (i mod 6)) = IZR (Z.of_nat (j mod 6))) by lra.
    assert (Hd : IZR (Z.of_nat (i / 6)) = IZR (Z.of_nat (j / 6))) by lra.
    apply eq_IZR, Nat2Z.inj in Hm; apply eq_IZR, Nat2Z.inj in Hd.
    rewrite (Nat.div_mod_eq i 6), (Nat.div_mod_eq j 6); congruence. }
  split; [intros Hr; lra|].
  unfold scene; rewrite map_map; cbn [fst].
  apply combine_seq_snd.
Qed.

Lemma damping_power_range (n : nat) :
  0 <= (1 - DAMPING (T := R)) ^ n <= 1.
Proof.
  destruct DAMPING_range as [_ Hr]; split.
  - apply pow_le; lra.
  - apply Rle_trans with (1 ^ n); [apply pow_incr; lra|].
    rewrite pow1; lra.
Qed.

(** X14. Clicking the image at [pos] makes the camera glide to the point 5
    units in front of it: the target becomes [pos] pushed back by 5 along z,
    and a camera that starts at or behind that point (larger z) comes closer
    frame after frame without ever getting nearer to the image than 5 units.
    Without a control handle the click does nothing. *)
Theorem focused_camera_stays_in_front (pos : Vector3 R) (st : RigState R)
  (camera : Camera R) (n : nat) :
  vz pos + 5 <= vz (position camera) ->
  onImageClick pos None = None
  /\ exists st',
       onImageClick pos (Some st) = Some st'
       /\ navigationTarget st' = mkVector3 (vx pos) (vy pos) (vz pos + 5)
       /\ vz pos + 5 <= vz (position (frames n st' camera))
          <= vz (position camera)
       /\ vz (position (frames (S n) st' camera))
          <= vz (position (frames n st' camera)).
Proof.
  intros Hfront; split; [reflexivity|].
  exists (focusOn (vx pos) (vy pos) (vz pos) st).
  split; [reflexivity|]. split; [reflexivity|].
  set (st' := focusOn (vx pos) (vy pos) (vz pos) st).
  pose proof (frames_axis st' camera AxisZ n) as Hn.
  pose proof (frames_axis st' camera AxisZ (S n)) as HSn.
  pose proof (damping_power_range n) as Hp.
  destruct DAMPING_range as [_ Hr].
  cbn [coord navigationTarget st' focusOn targetZ vz pow] in Hn, HSn; js_R.
  set (q := (1 - DAMPING) ^ n) in *.
  set (g := vz (position camera) - (vz pos + 5)) in *.
  assert (Hg : 0 <= g) by (unfold g; lra).
  assert (Hqg : 0 <= q * g) by (apply Rmult_le_pos; lra).
  assert (Hqg1 : q * g <= g) by nra.
  assert (Hdq : 0 <= DAMPING * (q * g)) by (apply Rmult_le_pos; lra).
  assert (Hgdef : g = vz (position camera) - (vz pos + 5)) by reflexivity.
  clearbody g q.
  split; [split|]; nra.
Qed.

Lemma focused_camera_stays_in_front_witness :
  vz (imagePosition 7 (1 / 2)) + 5
  <= vz (position
           (frames 3
              (focusOn (vx (imagePosition 7 (1 / 2)))
                       (vy (imagePosition 7 (1 / 2)))
                       (vz (imagePosition 7 (1 / 2))) sampleZooming)
              sampleCamera))
  <= vz (position sampleCamera).
Proof.
  assert (Hf : vz (imagePosition 7 (1 / 2)) + 5 <= vz (position sampleCamera)).
  { unfold imagePosition; cbn; lra. }
  destruct (@focused_camera_stays_in_front (imagePosition 7 (1 / 2))
              sampleZooming sampleCamera 3%nat Hf)
    as (_ & st' & Hst & _ & Hz & _).
  injection Hst as <-; exact Hz.
Defined.

(** ** Registration and cleanup of the listeners *)

Lemma sameListener_other_callback (a b : Listener) :
  callback a <> callback b -> sameListener a b = false.
Proof.
  intros Hc; unfold sameListener.
  apply Nat.eqb_neq in Hc; rewrite Hc.
  now rewrite andb_false_r.
Qed.

Lemma fresh_not_registered (h c : nat) (ty : string) (p : option bool)
  (w : list Listener) :
  (forall l, In l w -> (callback l < h \/ h + 5 < callback l)%nat) ->
  (h <= c <= h + 5)%nat ->
  existsb (sameListener (mkListener ty c false p)) w = false
  /\ filter (fun x => negb (sameListener (mkListener ty c false p) x)) w = w.
Proof.
  intros Hfresh Hk; induction w as [|x w IH]; [split; reflexivity|].
  assert (Hx : sameListener (mkListener ty c false p) x = false).
  { apply sameListener_other_callback; cbn [callback].
    destruct (Hfresh x (or_introl eq_refl)); lia. }
  destruct IH as [IH1 IH2].
  { intros l Hl; apply Hfresh; now right. }
  cbn [existsb filter]; rewrite Hx, IH1, IH2; split; reflexivity.
Qed.

Lemma mountRig_fresh (h : nat) (w : list Listener) :
  (forall l, In l w -> (callback l < h \/ h + 5 < callback l)%nat) ->
  mountRig h w = w ++ rigListeners h.
Proof.
  intros Hfresh.
  pose proof (fun c ty p Hc =>
                proj1 (@fresh_not_registered h c ty p w Hfresh Hc)) as Hw.
  unfold mountRig, rigListeners, addEventListener; cbn [fold_left].
  repeat (rewrite ?existsb_app, ?Hw by lia; cbn;
          rewrite <- ?app_assoc; cbn [app]).
  reflexivity.
Qed.

Lemma sameListener_match (ty : string) (c : nat) (cap : bool)
  (p p' : option bool) :
  sameListener (mkListener ty c cap p) (mkListener ty c cap p') = true.
Proof.
  unfold sameListener; cbn [eventType callback capture].
  now rewrite String.eqb_refl, Nat.eqb_refl, Bool.eqb_reflx.
Qed.

Lemma filter_all {A} (f : A -> bool) (l : list A) :
  (forall x, In x l -> f x = true) -> filter f l = l.
Proof.
  induction l as [|a l IH]; intros Hall; [reflexivity|].
  cbn [filter]; rewrite (Hall a (or_introl eq_refl)), IH; [reflexivity|].
  intros x Hx; apply Hall; now right.
Qed.

Lemma removals_as_one_filter (rs w : list Listener) :
  fold_left (fun acc l => removeEventListener l acc) rs w
  = filter (fun x => negb (existsb (fun r => sameListener r x) rs)) w.
Proof.
  revert w; induction rs as [|r rs IH]; intros w.
  - cbn [fold_left existsb negb]; symmetry; now apply filter_all.
  - cbn [fold_left]; rewrite IH; unfold removeEventListener.
    induction w as [|x w IHw]; [reflexivity|].
    cbn [filter existsb].
    destruct (sameListener r x); cbn [negb orb filter].
    + exact IHw.
    + destruct (existsb (fun r0 => sameListener r0 x) rs); cbn [negb];
        now rewrite IHw.
Qed.

(** X15. Mounting [CameraRig] on a window that does not already carry its
    handlers appends exactly its six listeners, the wheel listener among them
    with [passive: false] so that it may cancel scrolling; the cleanup
    removes all six, although it names the wheel listener without options,
    and leaves every other listener of the window in place and in order. *)
Theorem rig_listeners_cleaned_up (h : nat) (w : list Listener) :
  (forall l, In l w -> (callback l < h \/ h + 5 < callback l)%nat) ->
  mountRig h w = w ++ rigListeners h
  /\ In (mkListener "wheel" (h + 2) false (Some false)) (mountRig h w)
  /\ unmountRig h (mountRig h w) = w.
Proof.
  intros Hfresh.
  pose proof (@mountRig_fresh h w Hfresh) as Hm.
  split; [exact Hm|].
  split.
  { rewrite Hm; apply in_or_app; right; cbn; tauto. }
  rewrite Hm; unfold unmountRig.
  rewrite removals_as_one_filter, filter_app.
  rewrite filter_all.
  - unfold rigListeners, rigRemovals; cbn [filter existsb].
    rewrite !sameListener_match.
    rewrite ?orb_true_r; cbn [orb negb].
    apply app_nil_r.
  - intros x Hx; apply negb_true_iff.
    destruct (Hfresh x Hx) as [Hlo|Hhi];
      unfold rigRemovals; cbn [existsb];
      rewrite !sameListener_other_callback by (cbn [callback]; lia);
      reflexivity.
Qed.

Lemma rig_listeners_cleaned_up_witness :
  unmountRig 10
    (mountRig 10 [mkListener "resize" 3 false None;
                  mkListener "wheel" 40 true (Some true)])
  = [mkListener "resize" 3 false None;
     mkListener "wheel" 40 true (Some true)].
Proof.
  apply (@rig_listeners_cleaned_up 10).
  intros l [<-|[<-|[]]]; cbn [callback]; lia.
Defined.

(** * Further properties in binary64 *)

(** X16. In binary64 [reset] always brings the target back to finite
    numbers, whatever the refs held before, [Infinity] and [NaN] included:
    after any inputs followed by [reset] the target is finite, and so it is
    after the forty wheel events that had overflowed it. *)
Theorem reset_restores_finite64 (camera : Camera float) (rect : DOMRect float)
  (st : RigState float) (inputs : list (Input float)) :
  targetFinite (reset st) = true
  /\ targetFinite (run camera rect st (inputs ++ [CallReset])) = true
  /\ targetFinite
       (run camera64 rect64 (initialRig camera64) (repeat hugeWheel 40))
     = false
  /\ targetFinite
       (run camera64 rect64 (initialRig camera64)
          (repeat hugeWheel 40 ++ [CallReset]))
     = true.
Proof.
  split; [reflexivity|].
  split; [rewrite run_app; reflexivity|].
  split; vm_compute; reflexivity.
Qed.

Lemma idle_moves_change_nothing_witness :
  run camera64 rect64 (initialRig camera64)
    [MouseMove (mkMouseEvent 12%float 7%float);
     MouseMove (mkMouseEvent 400%float 0x1p1023%float)]
  = initialRig camera64.
Proof.
  apply idle_moves_change_nothing; reflexivity.
Defined.

Lemma plain_wheel_ignores_environment_witness :
  handleWheel camera64 rect64 (initialRig camera64)
    (mkWheelEvent (mkMouseEvent 400%float 300%float) 3%float)
  = handleWheel sampleCamera64_degenerate
      (mkDOMRect 0%float 0%float 0%float 0%float) (initialRig camera64)
      (mkWheelEvent (mkMouseEvent 1%float 2%float) 3%float).
Proof.
  apply plain_wheel_ignores_environment; reflexivity.
Defined.

(** * More on how inputs combine *)

(** X17. Only the key named exactly "Control" drives the modifier: any
    other key, pressed or released, changes nothing at all; after a keydown
    of Control the modifier is held and after a keyup it is not, wherever in
    a sequence of inputs they come. *)
Theorem modifier_tracks_control_key (camera : Camera R) (rect : DOMRect R)
  (st : RigState R) (e : KeyboardEvent) (inputs : list (Input R)) :
  key e <> "Control"%string ->
  handleKeyDown st e = st
  /\ handleKeyUp st e = st
  /\ ctrlPressed
       (run camera rect st (inputs ++ [KeyDown (mkKeyboardEvent "Control")]))
     = true
  /\ ctrlPressed
       (run camera rect st (inputs ++ [KeyUp (mkKeyboardEvent "Control")]))
     = false.
Proof.
  intros Hk; apply String.eqb_neq in Hk.
  unfold handleKeyDown, handleKeyUp; rewrite Hk.
  repeat split; rewrite run_app; reflexivity.
Qed.

Lemma modifier_tracks_control_key_witness :
  handleKeyDown sampleZooming (mkKeyboardEvent "control") = sampleZooming
  /\ handleKeyUp sampleZooming (mkKeyboardEvent "Shift") = sampleZooming.
Proof.
  split.
  - apply (@modifier_tracks_control_key sampleCamera sampleRect sampleZooming
             (mkKeyboardEvent "control") []); discriminate.
  - apply (@modifier_tracks_control_key sampleCamera sampleRect sampleZooming
             (mkKeyboardEvent "Shift") []); discriminate.
Defined.

(** X19. Before any input the canvas camera is at rest: the target starts
    at (0, 0, camera.position.z), so a camera on the z axis stays exactly
    where it is through any number of frames. *)
Theorem initial_camera_at_rest (camera : Camera R) (n : nat) :
  vx (position camera) = 0 -> vy (position camera) = 0 ->
  navigationTarget (initialRig camera) = position camera
  /\ frames n (initialRig camera) camera = camera.
Proof.
  intros Hx Hy.
  assert (Ht : navigationTarget (initialRig camera) = position camera).
  { destruct camera as [[x y z] mw pi]; cbn in Hx, Hy |- *; subst.
    reflexivity. }
  split; [exact Ht|].
  assert (Hstep : useFrame (initialRig camera) camera = camera).
  { destruct camera as [[x y z] mw pi]; cbn in Hx, Hy; subst.
    unfold useFrame, initialRig; cbn [position targetX targetY targetZ vx vy vz].
    js_R; f_equal; f_equal; ring. }
  induction n as [|n IH]; [reflexivity|].
  now rewrite frames_succ, IH.
Qed.

Lemma initial_camera_at_rest_witness :
  frames 60 (initialRig sampleCamera) sampleCamera = sampleCamera.
Proof.
  apply initial_camera_at_rest; reflexivity.
Defined.
